(** * A circuit breaker: admission control, outcome recording, notification

    Shallow embedding of [circuitbreaker.go].  The breaker is a record of
    the struct's fields; every region of [Execute] that runs with the mutex
    held is one atomic function on the pair of the breaker and the state of
    the outside world (the part of the program the callback [OnStateChange]
    and the wrapped operation act on).  The clock is an input: each place
    where the source reads it ([time.Since], [time.Now]) takes the reading
    as an argument. *)

From Stdlib Require Import ZArith List String Bool Lia.
Import ListNotations.
Local Open Scope Z_scope.

(** ** Go's [int]: 64 bits, two's complement, [++] wraps around *)

Module GoInt.

Definition min_int : Z := - 2 ^ 63.
Definition max_int : Z := 2 ^ 63 - 1.

Definition is_int (z : Z) : Prop := min_int <= z <= max_int.

Definition wrap (z : Z) : Z := (z + 2 ^ 63) mod 2 ^ 64 - 2 ^ 63.

(** [x++] *)
Definition incr (z : Z) : Z := wrap (z + 1).

End GoInt.

Import GoInt.

(** ** Time

    A [time.Time] is a number of nanoseconds counted from the zero value
    [time.Time{}]; a [time.Duration] is an [int64] of nanoseconds, and the
    difference of two times saturates at its bounds. *)

Definition Time := Z.
Definition Duration := Z.

Definition zero_Time : Time := 0.

Definition Second : Duration := 1000000000.

Definition time_Sub (t u : Time) : Duration :=
  Z.max min_int (Z.min max_int (t - u)).

(** [time.Since(t)], with [now] the clock reading of that call. *)
Definition time_Since (now t : Time) : Duration := time_Sub now t.

(** ** States *)

Inductive State : Type :=
| StateClosed
| StateOpen
| StateHalfOpen.

Definition State_eqb (a b : State) : bool :=
  match a, b with
  | StateClosed, StateClosed => true
  | StateOpen, StateOpen => true
  | StateHalfOpen, StateHalfOpen => true
  | _, _ => false
  end.

(** [State.String] *)
Definition State_String (s : State) : string :=
  match s with
  | StateClosed => "closed"%string
  | StateOpen => "open"%string
  | StateHalfOpen => "half-open"%string
  end.

(** An [error] value is represented by its message; [nil] is [None]. *)
Definition error := string.

Definition errOpen : error := "circuit breaker is open"%string.
Definition errHalfOpen : error := "circuit breaker is half-open"%string.

Section Breaker.

(** What the callback and the wrapped operation can read and change. *)
Context {World : Type}.

(** The values an operation returns ([interface{}]; [nil] is [None]). *)
Context {Result : Type}.

Record Settings : Type := mkSettings {
  FailureThreshold : Z;
  SuccessThreshold : Z;
  Timeout : Duration;
  MaxRequests : Z;
  OnStateChange : option (State -> State -> World -> World)
}.

Definition DefaultSettings : Settings :=
  {| FailureThreshold := 5;
     SuccessThreshold := 2;
     Timeout := 30 * Second;
     MaxRequests := 1;
     OnStateChange := None |}.

Record circuitBreaker : Type := mkBreaker {
  state : State;
  failureCount : Z;
  successCount : Z;
  halfOpenRequests : Z;
  openedAt : Time;
  settings : Settings
}.

Definition set_state (v : State) (c : circuitBreaker) : circuitBreaker :=
  mkBreaker v (failureCount c) (successCount c) (halfOpenRequests c)
            (openedAt c) (settings c).

Definition set_failureCount (v : Z) (c : circuitBreaker) : circuitBreaker :=
  mkBreaker (state c) v (successCount c) (halfOpenRequests c)
            (openedAt c) (settings c).

Definition set_successCount (v : Z) (c : circuitBreaker) : circuitBreaker :=
  mkBreaker (state c) (failureCount c) v (halfOpenRequests c)
            (openedAt c) (settings c).

Definition set_halfOpenRequests (v : Z) (c : circuitBreaker)
  : circuitBreaker :=
  mkBreaker (state c) (failureCount c) (successCount c) v
            (openedAt c) (settings c).

Definition set_openedAt (v : Time) (c : circuitBreaker) : circuitBreaker :=
  mkBreaker (state c) (failureCount c) (successCount c)
            (halfOpenRequests c) v (settings c).

(** The breaker together with the world its callback acts on. *)
Definition machine : Type := circuitBreaker * World.

Definition New (st : Settings) : circuitBreaker :=
  {| state := StateClosed;
     failureCount := 0;
     successCount := 0;
     halfOpenRequests := 0;
     openedAt := zero_Time;
     settings := st |}.


(** The call of the hook in [setState]: nothing happens when it is [nil]. *)
Definition fire (st : Settings) (from to : State) (w : World) : World :=
  match OnStateChange st with
  | Some f => f from to w
  | None => w
  end.

Definition setState (newState : State) (m : machine) : machine :=
  let (c, w) := m in
  if State_eqb (state c) newState then m
  else
    let oldState := state c in
    (set_state newState c, fire (settings c) oldState newState w).

(** *** [Execute], phase 1 (mutex held): can the call proceed? *)

Inductive admission : Type :=
| Proceed (captured : State)
| Blocked (err : error).

(** The first statement of [Execute]: an open breaker whose timeout has
    passed becomes half-open. *)
Definition half_open_if_due (now : Time) (m : machine) : machine :=
  let (c, w) := m in
  if State_eqb (state c) StateOpen
     && (Timeout (settings c) <=? time_Since now (openedAt c))
  then
    let (c1, w1) := setState StateHalfOpen m in
    (set_successCount 0 (set_halfOpenRequests 0 c1), w1)
  else m.

(** The [switch] on the state read after that statement. *)
Definition gate (m : machine) : admission * machine :=
  let (c, w) := m in
  match state c with
  | StateOpen => (Blocked errOpen, m)
  | StateHalfOpen =>
      if MaxRequests (settings c) <=? halfOpenRequests c
      then (Blocked errHalfOpen, m)
      else (Proceed StateHalfOpen,
            (set_halfOpenRequests (incr (halfOpenRequests c)) c, w))
  | StateClosed => (Proceed StateClosed, m)
  end.

Definition Execute_phase1 (now : Time) (m : machine) : admission * machine :=
  gate (half_open_if_due now m).

(** *** [Execute], phase 3 (mutex held): record the result

    [captured] is the local variable [state] of the call, [err] what the
    operation returned, [now] the reading of [time.Now()]. *)
Definition Execute_phase3 (captured : State) (err : option error)
           (now : Time) (m : machine) : machine :=
  let (c, w) := m in
  match err with
  | Some _ =>
      let c1 := set_successCount 0 (set_failureCount (incr (failureCount c)) c) in
      if State_eqb captured StateHalfOpen
         || (FailureThreshold (settings c1) <=? failureCount c1)
      then
        let (c2, w2) := setState StateOpen (c1, w) in
        (set_openedAt now c2, w2)
      else (c1, w)
  | None =>
      let c1 := set_failureCount 0 (set_successCount (incr (successCount c)) c) in
      if State_eqb captured StateHalfOpen
      then
        let c2 := set_halfOpenRequests 0 c1 in
        if SuccessThreshold (settings c2) <=? successCount c2
        then setState StateClosed (c2, w)
        else (c2, w)
      else (c1, w)
  end.

(** *** [Execute], one call run from its first statement to its last

    The operation [fn] acts on the world and returns a result and an
    error; [t1] and [t2] are the clock readings of phases 1 and 3. *)
Definition operation : Type :=
  World -> (option Result * option error) * World.

Definition Execute (fn : operation) (t1 t2 : Time) (m : machine)
  : (option Result * option error) * machine :=
  match Execute_phase1 t1 m with
  | (Blocked e, m1) => ((None, Some e), m1)
  | (Proceed captured, (c1, w1)) =>
      let '((result, err), w2) := fn w1 in
      ((result, err), Execute_phase3 captured err t2 (c1, w2))
  end.

(** *** The queries and [Reset] *)

Definition cb_State (m : machine) : State * machine := (state (fst m), m).

Definition Counts (m : machine) : (Z * Z) * machine :=
  ((failureCount (fst m), successCount (fst m)), m).

Definition Reset (m : machine) : machine :=
  let (c1, w1) := setState StateClosed m in
  (set_openedAt zero_Time
     (set_halfOpenRequests 0 (set_successCount 0 (set_failureCount 0 c1))),
   w1).

End Breaker.

Arguments Settings : clear implicits.
Arguments circuitBreaker : clear implicits.
Arguments machine : clear implicits.
Arguments operation : clear implicits.

(** ** Calls running concurrently

    The mutex makes phase 1 and phase 3 of every call atomic, and phase 2
    runs with the mutex released.  The breaker therefore moves by whole
    phases of the calls in progress, taken in any order.  [reachable st m fl]
    says that the breaker built by [New st] can be in the machine state [m]
    with the calls [fl] admitted and not yet recorded, each one standing for
    the state it captured. *)

Inductive reachable {World : Type} (st : Settings World)
  : machine World -> list State -> Prop :=
| reach_New (w : World) :
    reachable st (New st, w) []
| reach_proceed m fl now captured m' :
    reachable st m fl ->
    Execute_phase1 now m = (Proceed captured, m') ->
    reachable st m' (captured :: fl)
| reach_blocked m fl now e m' :
    reachable st m fl ->
    Execute_phase1 now m = (Blocked e, m') ->
    reachable st m' fl
| reach_world c w fl (g : World -> World) :
    reachable st (c, w) fl ->
    reachable st (c, g w) fl
| reach_record m fl1 captured fl2 err now :
    reachable st m (fl1 ++ captured :: fl2) ->
    reachable st (Execute_phase3 captured err now m) (fl1 ++ fl2)
| reach_Reset m fl :
    reachable st m fl ->
    reachable st (Reset m) fl
| reach_State m fl :
    reachable st m fl ->
    reachable st (snd (cb_State m)) fl
| reach_Counts m fl :
    reachable st m fl ->
    reachable st (snd (Counts m)) fl.

(** ** A concrete caller

    The settings of [example/main.go], with a callback that appends to a log
    in place of the one that prints, and a stub operation that counts its
    invocations. *)

Definition Probe : Type := (nat * list (State * State))%type.

Definition note (from to : State) (p : Probe) : Probe :=
  (fst p, snd p ++ [(from, to)]).

Definition stub (result : option string) (err : option error)
  : operation Probe string :=
  fun p => ((result, err), (S (fst p), snd p)).

Definition failing : operation Probe string :=
  stub (Some EmptyString) (Some "service unavailable"%string).

Definition succeeding : operation Probe string :=
  stub (Some "success"%string) None.

Definition example_settings : Settings Probe :=
  {| FailureThreshold := 3;
     SuccessThreshold := 2;
     Timeout := 5 * Second;
     MaxRequests := 1;
     OnStateChange := Some note |}.

(** Consecutive calls of one goroutine: each call ends before the next one
    starts.  A call is the operation and the two clock readings. *)
Fixpoint Execute_all {World Result : Type}
         (calls : list (operation World Result * Time * Time))
         (m : machine World) : machine World :=
  match calls with
  | [] => m
  | (fn, t1, t2) :: rest => Execute_all rest (snd (Execute fn t1 t2 m))
  end.

(** Phase 3 of calls that were all admitted while the breaker was closed and
    whose operations all failed, each with its error and the clock reading
    of its [time.Now()]. *)
Fixpoint record_failures {World : Type} (outcomes : list (error * Time))
         (m : machine World) : machine World :=
  match outcomes with
  | [] => m
  | (e, t) :: rest =>
      record_failures rest (Execute_phase3 StateClosed (Some e) t m)
  end.

(** An operation that returns an error, whatever the world. *)
Definition fails {World Result : Type}
           (call : operation World Result * Time * Time) : Prop :=
  forall w, snd (fst (fst (fst call) w)) <> None.

(** The world before any call: no invocation, no notification. *)
Definition untouched : Probe := (O, []).

(** Three failing calls, one second apart. *)
Definition three_failures : list (operation Probe string * Time * Time) :=
  [(failing, 0, 0); (failing, 1 * Second, 1 * Second);
   (failing, 2 * Second, 2 * Second)].

(** The breaker of the example after those three calls. *)
Definition example_opened : machine Probe :=
  Execute_all three_failures (New example_settings, untouched).

(** ** Invariants, as predicates on the breaker *)

(** One of the two streak counters is 0. *)
Definition one_streak {World : Type} (c : circuitBreaker World) : Prop :=
  failureCount c = 0 \/ successCount c = 0.

(** [halfOpenRequests] lies between 0 and [MaxRequests]. *)
Definition probes_bounded {World : Type} (c : circuitBreaker World) : Prop :=
  0 <= halfOpenRequests c <= MaxRequests (settings c).

(** An operation that returns no error, whatever the world. *)
Definition succeeds {World Result : Type}
           (call : operation World Result * Time * Time) : Prop :=
  forall w, snd (fst (fst (fst call) w)) = None.


(** ** The rest of the source, and what its users can rely on *)

(** [State] is an [int] in the source; [iota] numbers the constants. *)
Definition State_code (s : State) : Z :=
  match s with
  | StateClosed => 0
  | StateOpen => 1
  | StateHalfOpen => 2
  end.

(** [State.String] on any value of the underlying type, with its
    [default] case. *)
Definition String_of_code (z : Z) : string :=
  if z =? 0 then "closed"%string
  else if z =? 1 then "open"%string
  else if z =? 2 then "half-open"%string
  else "unknown"%string.




(** A breaker that is not closed and whose settings leave no room for a
    half-open request. *)
Definition latched {World : Type} (c : circuitBreaker World) : Prop :=
  state c <> StateClosed
  /\ 0 <= halfOpenRequests c
  /\ MaxRequests (settings c) <= 0.

(** Phase 3 of calls that were all admitted while the breaker was closed,
    with whatever their operations returned. *)
Fixpoint record_outcomes {World : Type}
         (outcomes : list (option error * Time))
         (m : machine World) : machine World :=
  match outcomes with
  | [] => m
  | (err, t) :: rest =>
      record_outcomes rest (Execute_phase3 StateClosed err t m)
  end.

(** The number of failures at the end of a sequence of outcomes, counted
    on from [f]: a success starts the count again. *)
Fixpoint streak (f : Z) (outcomes : list (option error * Time)) : Z :=
  match outcomes with
  | [] => f
  | (Some _, _) :: rest => streak (f + 1) rest
  | (None, _) :: rest => streak 0 rest
  end.

(** No point of the sequence has [threshold] failures in a row, counted
    on from [f]. *)
Fixpoint stays_below (threshold f : Z)
         (outcomes : list (option error * Time)) : bool :=
  match outcomes with
  | [] => true
  | (Some _, _) :: rest =>
      (f + 1 <? threshold) && stays_below threshold (f + 1) rest
  | (None, _) :: rest => stays_below threshold 0 rest
  end.

(** * Properties *)

(** ** Machine integers and state comparison *)


Lemma wrap_small z : is_int z -> wrap z = z.
Proof.
  unfold is_int, wrap, min_int, max_int. intros H.
  rewrite Z.mod_small; lia.
Qed.


(** Below the largest [int] the increment is the mathematical one. *)
Lemma incr_small z : min_int <= z -> z < max_int -> incr z = z + 1.
Proof.
  intros Hlo Hhi. unfold incr. apply wrap_small.
  unfold is_int, min_int, max_int in *. lia.
Qed.


Lemma State_eqb_spec a b : reflect (a = b) (State_eqb a b).
Proof. destruct a, b; simpl; constructor; congruence. Qed.

Lemma State_eqb_refl a : State_eqb a a = true.
Proof. now destruct a. Qed.

(** Split on every test the goal branches on. *)
Ltac branches :=
  repeat match goal with
         | |- context [if ?b then _ else _] => destruct b eqn:?; cbn
         end.


(** Read the fields of a breaker written out field by field. *)
Ltac fields :=
  cbn [fst snd state failureCount successCount halfOpenRequests openedAt
       settings set_state set_failureCount set_successCount
       set_halfOpenRequests set_openedAt] in *.

Section Steps.

Context {World Result : Type}.

Implicit Types (c : circuitBreaker World) (w : World) (m : machine World).
Implicit Types (fn : operation World Result) (now : Time).

(** ** What each locked region does, case by case *)

Lemma setState_same c w s :
  state c = s -> setState s (c, w) = (c, w).
Proof.
  intros <-. unfold setState. now rewrite State_eqb_refl.
Qed.

Lemma setState_change c w s :
  state c <> s ->
  setState s (c, w) = (set_state s c, fire (settings c) (state c) s w).
Proof.
  intros H. unfold setState.
  destruct (State_eqb_spec (state c) s); [contradiction | reflexivity].
Qed.

Lemma setState_state s m : state (fst (setState s m)) = s.
Proof.
  destruct m as [c w]. unfold setState.
  destruct (State_eqb_spec (state c) s); simpl; auto.
Qed.

Lemma half_open_if_due_not_open now c w :
  state c <> StateOpen -> half_open_if_due now (c, w) = (c, w).
Proof.
  intros H. unfold half_open_if_due.
  destruct (State_eqb_spec (state c) StateOpen); [contradiction | reflexivity].
Qed.

Lemma half_open_if_due_early now c w :
  time_Since now (openedAt c) < Timeout (settings c) ->
  half_open_if_due now (c, w) = (c, w).
Proof.
  intros H. unfold half_open_if_due.
  replace (Timeout (settings c) <=? time_Since now (openedAt c)) with false
    by (symmetry; apply Z.leb_gt; exact H).
  now rewrite andb_false_r.
Qed.

Lemma half_open_if_due_late now c w :
  state c = StateOpen ->
  Timeout (settings c) <= time_Since now (openedAt c) ->
  half_open_if_due now (c, w) =
    (mkBreaker StateHalfOpen (failureCount c) 0 0 (openedAt c) (settings c),
     fire (settings c) StateOpen StateHalfOpen w).
Proof.
  intros Hs Ht. unfold half_open_if_due, setState. rewrite Hs. simpl.
  replace (Timeout (settings c) <=? time_Since now (openedAt c)) with true
    by (symmetry; apply Z.leb_le; exact Ht).
  reflexivity.
Qed.

(** Phase 1 hands a call the state the breaker is left in. *)
Lemma gate_captured m a c1 w1 :
  gate m = (Proceed a, (c1, w1)) -> state c1 = a.
Proof.
  destruct m as [c w]. unfold gate.
  destruct (state c) eqn:Hs.
  - intros [= <- <- <-]. exact Hs.
  - discriminate.
  - destruct (MaxRequests (settings c) <=? halfOpenRequests c);
      [discriminate | intros [= <- <- <-]; exact Hs].
Qed.

Lemma Execute_phase1_captured now m a c1 w1 :
  Execute_phase1 now m = (Proceed a, (c1, w1)) -> state c1 = a.
Proof. apply gate_captured. Qed.

(** Only closed and half-open are ever captured. *)
Lemma Execute_phase1_never_captures_open now m m1 :
  Execute_phase1 now m <> (Proceed StateOpen, m1).
Proof.
  unfold Execute_phase1. destruct (half_open_if_due now m) as [c w].
  unfold gate. destruct (state c); try discriminate.
  destruct (_ <=? _); discriminate.
Qed.

(** A call on a closed breaker is admitted as it is. *)
Lemma Execute_closed fn t1 t2 c w :
  state c = StateClosed ->
  Execute fn t1 t2 (c, w) =
    let '((result, err), w2) := fn w in
    ((result, err), Execute_phase3 StateClosed err t2 (c, w2)).
Proof.
  intros Hs. unfold Execute, Execute_phase1.
  rewrite half_open_if_due_not_open by congruence.
  unfold gate. rewrite Hs. reflexivity.
Qed.

(** The breaker [Reset] leaves. *)
Lemma Reset_breaker c w :
  fst (Reset (c, w)) = mkBreaker StateClosed 0 0 0 zero_Time (settings c).
Proof.
  unfold Reset, setState.
  destruct (State_eqb_spec (state c) StateClosed) as [He | Hne];
    [| reflexivity].
  unfold set_openedAt, set_halfOpenRequests, set_successCount,
    set_failureCount. cbn. now rewrite He.
Qed.

End Steps.

(** ** Admission *)

Section Admission.

Context {World Result : Type}.

Implicit Types (c : circuitBreaker World) (w : World) (m : machine World).
Implicit Types (fn : operation World Result) (now : Time).

(** C2.  While the breaker is open and the time since [openedAt] is below
    the timeout, [Execute] returns the open error (which is not the
    half-open one) and leaves the breaker and the world as they were;
    the result does not depend on the operation, which is never run. *)
Theorem Execute_open_before_timeout fn t1 t2 c w :
  state c = StateOpen ->
  time_Since t1 (openedAt c) < Timeout (settings c) ->
  Execute fn t1 t2 (c, w) = ((None, Some errOpen), (c, w))
  /\ errOpen <> errHalfOpen.
Proof.
  intros Hs Ht. split; [| discriminate].
  unfold Execute, Execute_phase1.
  rewrite half_open_if_due_early by exact Ht.
  unfold gate. rewrite Hs. reflexivity.
Qed.

(** C4.  On an open breaker whose timeout has passed, the first statement
    of [Execute] makes it half-open, with [halfOpenRequests] and
    [successCount] at 0 and the callback run on (open, half-open); the
    admission of that same call is then decided by the half-open rule on
    that state.  Nothing but a call of [Execute] looks at the clock: the
    queries return the open state and the counts, and change nothing. *)
Theorem Execute_open_after_timeout now c w :
  state c = StateOpen ->
  Timeout (settings c) <= time_Since now (openedAt c) ->
  let h := mkBreaker StateHalfOpen (failureCount c) 0 0 (openedAt c)
                     (settings c) in
  let w' := fire (settings c) StateOpen StateHalfOpen w in
  half_open_if_due now (c, w) = (h, w')
  /\ Execute_phase1 now (c, w) = gate (h, w')
  /\ Execute_phase1 now (c, w) =
       (if MaxRequests (settings c) <=? 0
        then (Blocked errHalfOpen, (h, w'))
        else (Proceed StateHalfOpen, (set_halfOpenRequests 1 h, w')))
  /\ cb_State (c, w) = (StateOpen, (c, w))
  /\ Counts (c, w) = ((failureCount c, successCount c), (c, w)).
Proof.
  intros Hs Ht h w'.
  pose proof (half_open_if_due_late now c w Hs Ht) as Hd.
  repeat split.
  - exact Hd.
  - unfold Execute_phase1. now rewrite Hd.
  - unfold Execute_phase1. rewrite Hd. reflexivity.
  - unfold cb_State. simpl. now rewrite Hs.
Qed.



End Admission.

(** ** Recording *)

Section Recording.

Context {World Result : Type}.

Implicit Types (c : circuitBreaker World) (w : World) (m : machine World).
Implicit Types (fn : operation World Result) (now : Time).

(** Phase 3 after a failure of a call that captured half-open, whatever
    state the breaker is in by then: other calls may have moved it between
    the two phases.  The breaker ends open with [openedAt] at the clock
    reading; [setState] runs the callback unless the breaker is open
    already. *)
Lemma Execute_phase3_half_open_failure e now c w :
  Execute_phase3 StateHalfOpen (Some e) now (c, w) =
    (mkBreaker StateOpen (incr (failureCount c)) 0 (halfOpenRequests c) now
               (settings c),
     if State_eqb (state c) StateOpen then w
     else fire (settings c) (state c) StateOpen w).
Proof.
  unfold Execute_phase3, setState. simpl.
  destruct (State_eqb_spec (state c) StateOpen) as [He | Hne].
  - unfold set_openedAt. simpl. now rewrite He.
  - reflexivity.
Qed.

(** Phase 3 after a success of a call that captured half-open, whatever
    state the breaker is in by then. *)
Lemma Execute_phase3_half_open_success now c w :
  Execute_phase3 StateHalfOpen None now (c, w) =
    let n := incr (successCount c) in
    if SuccessThreshold (settings c) <=? n
    then (mkBreaker StateClosed 0 n 0 (openedAt c) (settings c),
          if State_eqb (state c) StateClosed then w
          else fire (settings c) (state c) StateClosed w)
    else (mkBreaker (state c) 0 n 0 (openedAt c) (settings c), w).
Proof.
  unfold Execute_phase3, setState. simpl.
  destruct (SuccessThreshold (settings c) <=? incr (successCount c));
    [| reflexivity].
  destruct (State_eqb_spec (state c) StateClosed) as [He | Hne].
  - unfold set_halfOpenRequests, set_failureCount, set_successCount. simpl.
    now rewrite He.
  - reflexivity.
Qed.

(** C5.  A call admitted with the captured state half-open whose operation
    returns an error leaves the breaker open, with [openedAt] at the clock
    reading of phase 3 and the callback run on (half-open, open); neither
    [SuccessThreshold] nor [successCount] plays a part.  The call returns
    what the operation returned. *)
Theorem Execute_half_open_failure fn t1 t2 m c1 w1 result e w2 :
  Execute_phase1 t1 m = (Proceed StateHalfOpen, (c1, w1)) ->
  fn w1 = ((result, Some e), w2) ->
  Execute fn t1 t2 m =
    ((result, Some e),
     (mkBreaker StateOpen (incr (failureCount c1)) 0 (halfOpenRequests c1) t2
                (settings c1),
      fire (settings c1) StateHalfOpen StateOpen w2)).
Proof.
  intros Hadm Hfn. unfold Execute. rewrite Hadm, Hfn.
  rewrite Execute_phase3_half_open_failure.
  now rewrite (Execute_phase1_captured _ _ _ _ _ Hadm).
Qed.

(** C6.  A call admitted with the captured state half-open whose operation
    returns no error increments [successCount], sets [failureCount] and
    [halfOpenRequests] to 0, and closes the breaker (running the callback
    on (half-open, closed)) exactly when the incremented [successCount]
    has reached [SuccessThreshold]; below it the breaker stays half-open
    and the callback does not run. *)
Theorem Execute_half_open_success fn t1 t2 m c1 w1 result w2 :
  Execute_phase1 t1 m = (Proceed StateHalfOpen, (c1, w1)) ->
  fn w1 = ((result, None), w2) ->
  let n := incr (successCount c1) in
  Execute fn t1 t2 m =
    ((result, None),
     if SuccessThreshold (settings c1) <=? n
     then (mkBreaker StateClosed 0 n 0 (openedAt c1) (settings c1),
           fire (settings c1) StateHalfOpen StateClosed w2)
     else (mkBreaker StateHalfOpen 0 n 0 (openedAt c1) (settings c1), w2)).
Proof.
  intros Hadm Hfn n. unfold Execute. rewrite Hadm, Hfn.
  rewrite Execute_phase3_half_open_success.
  rewrite (Execute_phase1_captured _ _ _ _ _ Hadm). reflexivity.
Qed.

End Recording.

(** ** Opening after consecutive failures *)

Section Opening.

Context {World : Type}.

Implicit Types (c : circuitBreaker World) (w : World) (m : machine World).

(** Phase 3 after a failure of a call that captured closed, whatever state
    the breaker is in by then. *)
Lemma Execute_phase3_closed_failure e now c w :
  Execute_phase3 StateClosed (Some e) now (c, w) =
    let n := incr (failureCount c) in
    if FailureThreshold (settings c) <=? n
    then (mkBreaker StateOpen n 0 (halfOpenRequests c) now (settings c),
          if State_eqb (state c) StateOpen then w
          else fire (settings c) (state c) StateOpen w)
    else (mkBreaker (state c) n 0 (halfOpenRequests c) (openedAt c)
                    (settings c), w).
Proof.
  unfold Execute_phase3, setState. simpl.
  destruct (FailureThreshold (settings c) <=? incr (failureCount c));
    [| reflexivity].
  destruct (State_eqb_spec (state c) StateOpen) as [He | Hne].
  - unfold set_openedAt. simpl. now rewrite He.
  - reflexivity.
Qed.

(** Once the breaker is open, further failures of calls admitted while it
    was closed keep it open and run no callback. *)
Lemma record_failures_open outcomes : forall c w,
  state c = StateOpen ->
  state (fst (record_failures outcomes (c, w))) = StateOpen
  /\ snd (record_failures outcomes (c, w)) = w.
Proof.
  induction outcomes as [| [e t] rest IH]; intros c w Hs;
    cbn [record_failures].
  - auto.
  - rewrite Execute_phase3_closed_failure. cbv zeta.
    destruct (FailureThreshold (settings c) <=? incr (failureCount c)).
    + rewrite Hs. simpl. apply IH. reflexivity.
    + apply IH. exact Hs.
Qed.

Lemma last_cons_nonempty {A} (a d : A) (l : list A) :
  l <> [] -> last (a :: l) d = last l d.
Proof. destruct l; [contradiction | reflexivity]. Qed.

(** C1.  On a closed breaker whose failure count is below the threshold,
    let [k] be the number of failures still missing.  After fewer than [k]
    consecutive failures of calls admitted in the closed state the breaker
    is still closed and no callback has run; after [k] or more it is open
    and the callback has run once in all, on (closed, open); and right
    after the [k]-th, [openedAt] is the clock reading of that call.  So
    the breaker opens once, at the [k]-th call.  The errors are arbitrary. *)
Theorem record_failures_opens_once outcomes : forall c w,
  state c = StateClosed ->
  is_int (failureCount c) ->
  is_int (FailureThreshold (settings c)) ->
  failureCount c < FailureThreshold (settings c) ->
  let k := FailureThreshold (settings c) - failureCount c in
  let n := Z.of_nat (List.length outcomes) in
  let m' := record_failures outcomes (c, w) in
  (n < k ->
   state (fst m') = StateClosed /\ snd m' = w
   /\ failureCount (fst m') = failureCount c + n)
  /\ (k <= n ->
      state (fst m') = StateOpen
      /\ snd m' = fire (settings c) StateClosed StateOpen w)
  /\ (n = k ->
      forall d, openedAt (fst m') = snd (last outcomes d)).
Proof.
  induction outcomes as [| [e t] rest IH]; intros c w Hs Hfc Hthr Hlt k n m'.
  - subst k n m'. simpl. repeat split; intros; try lia; auto.
  - subst m'. cbn [record_failures].
    rewrite Execute_phase3_closed_failure. cbv zeta.
    assert (Hincr : incr (failureCount c) = failureCount c + 1).
    { apply incr_small; unfold is_int in *; lia. }
    rewrite Hincr.
    assert (Hn : n = Z.of_nat (List.length rest) + 1)
      by (subst n; cbn [List.length]; lia).
    destruct (Z.leb_spec (FailureThreshold (settings c)) (failureCount c + 1))
      as [Hhit | Hbelow].
    + (* this failure reaches the threshold *)
      rewrite Hs. cbn [State_eqb].
      match goal with
      | |- context [record_failures rest (?c1, ?w1)] =>
          destruct (record_failures_open rest c1 w1 eq_refl) as [Ho Hw]
      end.
      repeat split; intros; try lia; try assumption.
      assert (rest = []) by (destruct rest; [reflexivity | cbn [List.length] in *; lia]).
      subst rest. reflexivity.
    + (* still below the threshold *)
      rewrite Hs.
      match goal with
      | |- context [record_failures rest (?c1, w)] =>
          specialize (IH c1 w eq_refl); cbn [failureCount settings] in IH
      end.
      destruct IH as (IH1 & IH2 & IH3).
      * unfold is_int in *. lia.
      * exact Hthr.
      * lia.
      * subst k. repeat split; intros.
        -- apply IH1. lia.
        -- apply IH1. lia.
        -- destruct IH1 as (_ & _ & ->); lia.
        -- apply IH2. lia.
        -- apply IH2. lia.
        -- rewrite last_cons_nonempty
             by (destruct rest; [cbn [List.length] in *; lia | discriminate]).
           apply IH3. lia.
Qed.

End Opening.

(** ** Invariants of the breaker under concurrent calls *)

Section Invariants.

Context {World : Type}.

Implicit Types (c : circuitBreaker World) (w : World) (m : machine World).
Implicit Types (st : Settings World).

Lemma setState_settings s m : settings (fst (setState s m)) = settings (fst m).
Proof.
  destruct m as [c w]. unfold setState.
  destruct (State_eqb (state c) s); reflexivity.
Qed.

Lemma half_open_if_due_settings now m :
  settings (fst (half_open_if_due now m)) = settings (fst m).
Proof.
  destruct m as [c w]. unfold half_open_if_due, setState.
  destruct (State_eqb (state c) StateOpen && _); [| reflexivity].
  destruct (State_eqb (state c) StateHalfOpen); reflexivity.
Qed.

Lemma gate_settings m : settings (fst (snd (gate m))) = settings (fst m).
Proof.
  destruct m as [c w]. unfold gate.
  destruct (state c); try reflexivity.
  destruct (_ <=? _); reflexivity.
Qed.

Lemma Execute_phase1_settings now m :
  settings (fst (snd (Execute_phase1 now m))) = settings (fst m).
Proof.
  unfold Execute_phase1. now rewrite gate_settings, half_open_if_due_settings.
Qed.

Lemma Execute_phase3_settings captured err now m :
  settings (fst (Execute_phase3 captured err now m)) = settings (fst m).
Proof.
  destruct m as [c w]. unfold Execute_phase3, setState.
  destruct err; simpl.
  - destruct (State_eqb captured StateHalfOpen || _); [| reflexivity].
    destruct (State_eqb (state c) StateOpen); reflexivity.
  - destruct (State_eqb captured StateHalfOpen); [| reflexivity].
    destruct (_ <=? _); [| reflexivity].
    destruct (State_eqb (state c) StateClosed); reflexivity.
Qed.

Lemma Reset_settings m : settings (fst (Reset m)) = settings (fst m).
Proof.
  destruct m as [c w]. unfold Reset, setState.
  destruct (State_eqb (state c) StateClosed); reflexivity.
Qed.

(** The settings never change after [New]. *)
Lemma reachable_settings st m fl :
  reachable st m fl -> settings (fst m) = st.
Proof.
  induction 1 as [w | m fl now a m' _ IH He | m fl now e m' _ IH He
                 | c w fl g _ IH | m fl1 a fl2 err now _ IH
                 | m fl _ IH | m fl _ IH | m fl _ IH].
  - reflexivity.
  - pose proof (Execute_phase1_settings now m) as Hs.
    rewrite He in Hs. simpl in Hs. congruence.
  - pose proof (Execute_phase1_settings now m) as Hs.
    rewrite He in Hs. simpl in Hs. congruence.
  - exact IH.
  - now rewrite Execute_phase3_settings.
  - now rewrite Reset_settings.
  - exact IH.
  - exact IH.
Qed.

(** *** The two streak counters *)

Lemma half_open_if_due_one_streak now m :
  one_streak (fst m) -> one_streak (fst (half_open_if_due now m)).
Proof.
  destruct m as [c w]. unfold half_open_if_due, setState, one_streak.
  destruct (State_eqb (state c) StateOpen && _); [| auto].
  destruct (State_eqb (state c) StateHalfOpen); simpl; auto.
Qed.

Lemma gate_one_streak m :
  one_streak (fst m) -> one_streak (fst (snd (gate m))).
Proof.
  destruct m as [c w]. unfold gate, one_streak.
  destruct (state c); simpl; auto.
  destruct (_ <=? _); simpl; auto.
Qed.

(** Recording makes one of the counters 0 whatever they were. *)
Lemma Execute_phase3_one_streak captured err now m :
  one_streak (fst (Execute_phase3 captured err now m)).
Proof.
  destruct m as [c w]. unfold Execute_phase3, setState, one_streak.
  destruct err; simpl.
  - destruct (State_eqb captured StateHalfOpen || _); simpl; auto.
    destruct (State_eqb (state c) StateOpen); simpl; auto.
  - destruct (State_eqb captured StateHalfOpen); simpl; auto.
    destruct (_ <=? _); simpl; auto.
    destruct (State_eqb (state c) StateClosed); simpl; auto.
Qed.

Lemma Reset_one_streak m : one_streak (fst (Reset m)).
Proof.
  destruct m as [c w]. unfold Reset, setState, one_streak.
  destruct (State_eqb (state c) StateClosed); simpl; auto.
Qed.

(** C10.  Whatever public operations have run on a breaker made by [New],
    in whatever order their locked phases were taken, [failureCount] or
    [successCount] is 0. *)
Theorem streaks_never_both_nonzero st m fl :
  reachable st m fl ->
  failureCount (fst m) = 0 \/ successCount (fst m) = 0.
Proof.
  change (reachable st m fl -> one_streak (fst m)).
  induction 1 as [w | m fl now a m' _ IH He | m fl now e m' _ IH He
                 | c w fl g _ IH | m fl1 a fl2 err now _ IH
                 | m fl _ IH | m fl _ IH | m fl _ IH].
  - left. reflexivity.
  - pose proof (gate_one_streak _ (half_open_if_due_one_streak now m IH)) as Hg.
    unfold Execute_phase1 in He. now rewrite He in Hg.
  - pose proof (gate_one_streak _ (half_open_if_due_one_streak now m IH)) as Hg.
    unfold Execute_phase1 in He. now rewrite He in Hg.
  - exact IH.
  - apply Execute_phase3_one_streak.
  - apply Reset_one_streak.
  - exact IH.
  - exact IH.
Qed.

End Invariants.

(** ** The count of half-open requests *)

Section HalfOpenRequests.

Context {World : Type}.

Implicit Types (c : circuitBreaker World) (w : World) (m : machine World).
Implicit Types (st : Settings World).

Lemma half_open_if_due_probes_bounded now m :
  probes_bounded (fst m) -> probes_bounded (fst (half_open_if_due now m)).
Proof.
  destruct m as [c w]. unfold half_open_if_due, setState, probes_bounded.
  destruct (State_eqb (state c) StateOpen && _); [| auto].
  destruct (State_eqb (state c) StateHalfOpen); simpl; lia.
Qed.

Lemma gate_probes_bounded m :
  MaxRequests (settings (fst m)) <= max_int ->
  probes_bounded (fst m) -> probes_bounded (fst (snd (gate m))).
Proof.
  destruct m as [c w]. unfold gate, probes_bounded. simpl. intros Hmax Hb.
  destruct (state c); simpl; auto.
  destruct (Z.leb_spec (MaxRequests (settings c)) (halfOpenRequests c));
    simpl; auto.
  rewrite incr_small; unfold min_int in *; lia.
Qed.

Lemma Execute_phase3_probes_bounded captured err now m :
  probes_bounded (fst m) ->
  probes_bounded (fst (Execute_phase3 captured err now m)).
Proof.
  destruct m as [c w]. unfold Execute_phase3, setState, probes_bounded.
  simpl. intros Hb.
  destruct err; simpl.
  - destruct (State_eqb captured StateHalfOpen || _); simpl; auto.
    destruct (State_eqb (state c) StateOpen); simpl; auto.
  - destruct (State_eqb captured StateHalfOpen); simpl; auto.
    destruct (_ <=? _); simpl; try lia.
    destruct (State_eqb (state c) StateClosed); simpl; lia.
Qed.

Lemma Reset_probes_bounded m :
  0 <= MaxRequests (settings (fst m)) -> probes_bounded (fst (Reset m)).
Proof.
  destruct m as [c w]. unfold Reset, setState, probes_bounded. simpl.
  destruct (State_eqb (state c) StateClosed); simpl; lia.
Qed.

Lemma reachable_probes_bounded st m fl :
  0 <= MaxRequests st <= max_int ->
  reachable st m fl -> probes_bounded (fst m).
Proof.
  intros Hmax Hr. pose proof (reachable_settings st m fl Hr) as Hst.
  revert Hst.
  induction Hr as [w | m fl now a m' Hr IH He | m fl now e m' Hr IH He
                  | c w fl g Hr IH | m fl1 a fl2 err now Hr IH
                  | m fl Hr IH | m fl Hr IH | m fl Hr IH]; intros Hst.
  - unfold probes_bounded. simpl. lia.
  - pose proof (reachable_settings _ _ _ Hr) as Hm.
    specialize (IH Hm).
    pose proof (gate_probes_bounded (half_open_if_due now m)) as Hg.
    rewrite half_open_if_due_settings, Hm in Hg.
    specialize (Hg (proj2 Hmax) (half_open_if_due_probes_bounded now m IH)).
    unfold Execute_phase1 in He. now rewrite He in Hg.
  - pose proof (reachable_settings _ _ _ Hr) as Hm.
    specialize (IH Hm).
    pose proof (gate_probes_bounded (half_open_if_due now m)) as Hg.
    rewrite half_open_if_due_settings, Hm in Hg.
    specialize (Hg (proj2 Hmax) (half_open_if_due_probes_bounded now m IH)).
    unfold Execute_phase1 in He. now rewrite He in Hg.
  - apply IH. exact Hst.
  - apply Execute_phase3_probes_bounded, IH.
    exact (reachable_settings _ _ _ Hr).
  - apply Reset_probes_bounded.
    rewrite (reachable_settings _ _ _ Hr). lia.
  - apply IH. exact Hst.
  - apply IH. exact Hst.
Qed.

(** The state changes to half-open in the first statement of [Execute]
    only. *)
Lemma gate_state m : state (fst (snd (gate m))) = state (fst m).
Proof.
  destruct m as [c w]. unfold gate.
  destruct (state c) eqn:Hs; simpl; auto.
  destruct (_ <=? _); simpl; auto.
Qed.

Lemma Execute_phase3_enters_not captured err now c w :
  state (fst (Execute_phase3 captured err now (c, w))) = StateHalfOpen ->
  state c = StateHalfOpen.
Proof.
  unfold Execute_phase3, setState.
  destruct err; simpl.
  - destruct (State_eqb captured StateHalfOpen || _); simpl; auto.
    destruct (State_eqb (state c) StateOpen); simpl; auto; discriminate.
  - destruct (State_eqb captured StateHalfOpen); simpl; auto.
    destruct (_ <=? _); simpl; auto.
    destruct (State_eqb (state c) StateClosed) eqn:E; simpl; auto;
      discriminate.
Qed.

(** C3, as the code has it.  With [MaxRequests] from 0 up, in every
    reachable state [halfOpenRequests] lies between 0 and [MaxRequests]
    (in the half-open state as in the others).  It is 0 when the first
    statement of [Execute] has made the breaker half-open, and no other
    step enters that state.  It is 0 when phase 3 takes the breaker from
    half-open to closed, and after [Reset].  When phase 3 takes the breaker
    from half-open to open it keeps the value it had. *)
Theorem halfOpenRequests_bounded_and_reset st :
  0 <= MaxRequests st <= max_int ->
  (forall m fl, reachable st m fl ->
     0 <= halfOpenRequests (fst m) <= MaxRequests st)
  /\ (forall now c w,
        state c <> StateHalfOpen ->
        state (fst (half_open_if_due now (c, w))) = StateHalfOpen ->
        halfOpenRequests (fst (half_open_if_due now (c, w))) = 0)
  /\ (forall captured err now c w,
        (state (fst (snd (gate (c, w)))) = StateHalfOpen ->
         state c = StateHalfOpen)
        /\ (state (fst (Execute_phase3 captured err now (c, w)))
              = StateHalfOpen -> state c = StateHalfOpen)
        /\ state (fst (Reset (c, w))) = StateClosed)
  /\ (forall captured err now c w,
        state c = StateHalfOpen ->
        state (fst (Execute_phase3 captured err now (c, w))) = StateClosed ->
        halfOpenRequests (fst (Execute_phase3 captured err now (c, w))) = 0)
  /\ (forall c w, halfOpenRequests (fst (Reset (c, w))) = 0)
  /\ (forall captured err now c w,
        state c = StateHalfOpen ->
        state (fst (Execute_phase3 captured err now (c, w))) = StateOpen ->
        halfOpenRequests (fst (Execute_phase3 captured err now (c, w)))
          = halfOpenRequests c).
Proof.
  intros Hmax. repeat apply conj.
  - intros m fl Hr.
    pose proof (reachable_probes_bounded st m fl Hmax Hr) as Hb.
    unfold probes_bounded in Hb.
    now rewrite (reachable_settings _ _ _ Hr) in Hb.
  - intros now c w Hne. unfold half_open_if_due, setState.
    destruct (State_eqb (state c) StateOpen && _); simpl.
    + destruct (State_eqb (state c) StateHalfOpen); reflexivity.
    + intros He. contradiction.
  - intros captured err now c w. repeat apply conj.
    + rewrite gate_state. auto.
    + apply Execute_phase3_enters_not.
    + now rewrite Reset_breaker.
  - intros captured err now c w Hs. unfold Execute_phase3, setState.
    destruct err; cbn; rewrite ?Hs; cbn; branches;
      rewrite ?Hs; auto; discriminate.
  - intros c w. now rewrite Reset_breaker.
  - intros captured err now c w Hs. unfold Execute_phase3, setState.
    destruct err; cbn; rewrite ?Hs; cbn; branches;
      rewrite ?Hs; auto; discriminate.
Qed.

(** *** The streak counters of a reachable breaker

    What C1 assumes of a closed breaker holds of every closed breaker that
    [New] and the public operations produce, when the threshold is
    positive. *)







End HalfOpenRequests.

(** ** Calls made one after the other *)

Section Sequential.

Context {World Result : Type}.

Implicit Types (c : circuitBreaker World) (w : World) (m : machine World).
Implicit Types (fn : operation World Result) (st : Settings World).
Implicit Types (calls : list (operation World Result * Time * Time)).

(** A whole call is an admission, the operation, and a recording with
    nothing in between: what consecutive calls reach, concurrent calls
    reach. *)
Lemma Execute_reachable st fn t1 t2 m fl :
  reachable st m fl -> reachable st (snd (Execute fn t1 t2 m)) fl.
Proof.
  intros Hr. unfold Execute.
  destruct (Execute_phase1 t1 m) as [[a | e] [c1 w1]] eqn:Hp.
  - pose proof (reach_proceed st m fl t1 a (c1, w1) Hr Hp) as Ha.
    apply (reach_world st c1 w1 (a :: fl) (fun w => snd (fn w))) in Ha.
    destruct (fn w1) as [[result err] w2]. simpl in Ha. simpl.
    exact (reach_record st (c1, w2) [] a fl err t2 Ha).
  - simpl. exact (reach_blocked st m fl t1 e (c1, w1) Hr Hp).
Qed.

Lemma Execute_all_reachable st calls : forall m fl,
  reachable st m fl -> reachable st (Execute_all calls m) fl.
Proof.
  induction calls as [| [[fn t1] t2] rest IH]; intros m fl Hr; simpl.
  - exact Hr.
  - apply IH, Execute_reachable, Hr.
Qed.

(** X18.  Whole calls made one after the other on a closed breaker, all
    failing, are all admitted: the breaker stays closed, counting them,
    until the call that brings [failureCount] to [FailureThreshold], which
    opens it. *)
Lemma Execute_all_closed_failures calls : forall c w,
  state c = StateClosed ->
  is_int (failureCount c) ->
  is_int (FailureThreshold (settings c)) ->
  failureCount c < FailureThreshold (settings c) ->
  Forall fails calls ->
  let k := FailureThreshold (settings c) - failureCount c in
  let n := Z.of_nat (List.length calls) in
  let m' := Execute_all calls (c, w) in
  (n < k ->
   state (fst m') = StateClosed
   /\ failureCount (fst m') = failureCount c + n
   /\ settings (fst m') = settings c)
  /\ (n = k ->
      state (fst m') = StateOpen
      /\ failureCount (fst m') = FailureThreshold (settings c)).
Proof.
  induction calls as [| [[fn t1] t2] rest IH];
    intros c w Hs Hi Hthr Hlt Hall k n m'.
  - subst k n m'. cbn. split; intros; [repeat split; (assumption || lia) | lia].
  - inversion Hall as [| x l Hfn Hrest]; subst.
    subst m'. cbn [Execute_all].
    rewrite (Execute_closed fn t1 t2 c w Hs).
    unfold fails in Hfn. cbn in Hfn. specialize (Hfn w).
    destruct (fn w) as [[result err] w2]. cbn in Hfn.
    destruct err as [e |]; [clear Hfn | congruence].
    cbn [snd]. rewrite Execute_phase3_closed_failure. cbv zeta.
    assert (Hincr : incr (failureCount c) = failureCount c + 1)
      by (apply incr_small; unfold is_int in *; lia).
    rewrite Hincr.
    assert (Hn : n = Z.of_nat (List.length rest) + 1)
      by (subst n; cbn [List.length]; lia).
    destruct (Z.leb_spec (FailureThreshold (settings c)) (failureCount c + 1))
      as [Hhit | Hbelow].
    + assert (Hk : k = 1) by (subst k; lia).
      split; intros Hnk; [lia |].
      assert (rest = [])
        by (destruct rest; [reflexivity | cbn [List.length] in *; lia]).
      subst rest. cbn. split; [reflexivity | lia].
    + rewrite Hs.
      match goal with
      | |- context [Execute_all rest (?c1, w2)] =>
          specialize (IH c1 w2 eq_refl);
            cbn [failureCount settings] in IH
      end.
      destruct IH as (IH1 & IH2); try assumption.
      * unfold is_int in *. lia.
      * subst k. split; intros Hnk.
        -- destruct IH1 as (I1 & I2 & I3); [lia |].
           repeat split; [exact I1 | rewrite I2; lia | exact I3].
        -- destruct IH2 as (I1 & I2); [lia |]. split; assumption.
Qed.




End Sequential.

(** * The breaker of [example/main.go] at work *)

(** The scenario of three failures, a rejected call one second later, and
    two successful probes once five seconds have passed. *)
Example scenario_recovery :
  example_opened = (mkBreaker StateOpen 3 0 0 (2 * Second) example_settings,
            (3%nat, [(StateClosed, StateOpen)]))
  /\ Execute failing (3 * Second) (3 * Second) example_opened
     = ((None, Some errOpen), example_opened)
  /\ (let m1 :=
        snd (Execute succeeding (7 * Second) (7 * Second) example_opened) in
      m1 = (mkBreaker StateHalfOpen 0 1 0 (2 * Second) example_settings,
            (4%nat, [(StateClosed, StateOpen); (StateOpen, StateHalfOpen)]))
      /\ snd (Execute succeeding (8 * Second) (8 * Second) m1)
         = (mkBreaker StateClosed 0 2 0 (2 * Second) example_settings,
            (5%nat, [(StateClosed, StateOpen); (StateOpen, StateHalfOpen);
                     (StateHalfOpen, StateClosed)]))).
Proof. vm_compute. repeat split. Qed.

(** The scenario of a probe that fails. *)
Example scenario_probe_fails :
  snd (Execute failing (7 * Second) (7 * Second) example_opened)
  = (mkBreaker StateOpen 4 0 1 (7 * Second) example_settings,
     (4%nat, [(StateClosed, StateOpen); (StateOpen, StateHalfOpen);
              (StateHalfOpen, StateOpen)])).
Proof. vm_compute. reflexivity. Qed.

(** C3 as stated fails.  The breaker of the example, opened by three
    failures, admits a probe after the timeout and is half-open with one
    request counted; when that probe fails the breaker leaves half-open
    for open and [halfOpenRequests] is still 1, not 0. *)
Lemma halfOpenRequests_kept_on_reopening :
  exists m1 : machine Probe,
    reachable example_settings m1 [StateHalfOpen]
    /\ state (fst m1) = StateHalfOpen
    /\ let m2 := Execute_phase3 StateHalfOpen (Some "service unavailable"%string)
                                (7 * Second) m1 in
       reachable example_settings m2 []
       /\ state (fst m2) = StateOpen
       /\ halfOpenRequests (fst m2) = 1
       /\ halfOpenRequests (fst m2) <> 0.
Proof.
  exists (snd (Execute_phase1 (7 * Second) example_opened)).
  assert (Hr : reachable example_settings
                 (snd (Execute_phase1 (7 * Second) example_opened)) [StateHalfOpen]).
  { apply (reach_proceed example_settings example_opened [] (7 * Second)).
    - apply Execute_all_reachable, reach_New.
    - vm_compute. reflexivity. }
  split; [exact Hr |]. split; [vm_compute; reflexivity |].
  split; [exact (reach_record example_settings _ [] StateHalfOpen [] _ _ Hr) |].
  vm_compute. repeat split. discriminate.
Qed.


(** Between the two phases of a probe another call can move the breaker.
    With two probes admitted together and both failing, the second one to
    record finds the breaker open already: it stays open, [openedAt] moves
    to the later reading, and [setState] does not run the callback again. *)
Example two_probes_fail :
  let st := mkSettings 3 2 (5 * Second) 2 (Some note) in
  let m0 := (mkBreaker StateHalfOpen 3 0 0 (2 * Second) st,
             (3%nat, [(StateClosed, StateOpen); (StateOpen, StateHalfOpen)])) in
  let m1 := snd (Execute_phase1 (7 * Second) m0) in
  let m2 := snd (Execute_phase1 (7 * Second) m1) in
  let m3 := Execute_phase3 StateHalfOpen (Some "first"%string) (8 * Second) m2 in
  let m4 := Execute_phase3 StateHalfOpen (Some "second"%string) (9 * Second) m3 in
  fst (Execute_phase1 (7 * Second) m0) = Proceed StateHalfOpen
  /\ fst (Execute_phase1 (7 * Second) m1) = Proceed StateHalfOpen
  /\ state (fst m3) = StateOpen
  /\ snd m3 = (3%nat, [(StateClosed, StateOpen); (StateOpen, StateHalfOpen);
                       (StateHalfOpen, StateOpen)])
  /\ state (fst m4) = StateOpen
  /\ openedAt (fst m4) = 9 * Second
  /\ snd m4 = snd m3.
Proof. vm_compute. repeat split. Qed.


(** * The theorems at the breaker of the example *)

Lemma record_failures_opens_once_witness :
  let c := New example_settings in
  let outcomes := [("e1"%string, 1 * Second); ("e2"%string, 2 * Second);
                   ("e3"%string, 3 * Second); ("e4"%string, 4 * Second)] in
  (state (fst (record_failures (firstn 2 outcomes) (c, untouched)))
     = StateClosed
   /\ snd (record_failures (firstn 2 outcomes) (c, untouched)) = untouched)
  /\ (state (fst (record_failures outcomes (c, untouched))) = StateOpen
      /\ snd (record_failures outcomes (c, untouched))
         = (O, [(StateClosed, StateOpen)]))
  /\ openedAt (fst (record_failures (firstn 3 outcomes) (c, untouched)))
     = 3 * Second.
Proof.
  intros c outcomes.
  assert (Hc : is_int (failureCount c)) by (vm_compute; split; discriminate).
  assert (Ht : is_int (FailureThreshold (settings c)))
    by (vm_compute; split; discriminate).
  assert (Hlt : failureCount c < FailureThreshold (settings c)) by reflexivity.
  split; [| split].
  - destruct (record_failures_opens_once (firstn 2 outcomes) c untouched
                eq_refl Hc Ht Hlt) as (H & _ & _).
    destruct H as (H1 & H2 & _); [reflexivity |]. split; assumption.
  - destruct (record_failures_opens_once outcomes c untouched
                eq_refl Hc Ht Hlt) as (_ & H & _).
    apply H. vm_compute. discriminate.
  - destruct (record_failures_opens_once (firstn 3 outcomes) c untouched
                eq_refl Hc Ht Hlt) as (_ & _ & H).
    exact (H eq_refl ("none"%string, 0)).
Defined.

Lemma Execute_open_before_timeout_witness :
  let c := mkBreaker StateOpen 3 0 0 (2 * Second) example_settings in
  let w := (3%nat, [(StateClosed, StateOpen)]) in
  Execute failing (3 * Second) (3 * Second) (c, w)
    = ((None, Some errOpen), (c, w))
  /\ errOpen <> errHalfOpen.
Proof.
  intros c w. apply Execute_open_before_timeout; reflexivity.
Defined.

Lemma halfOpenRequests_bounded_and_reset_witness :
  0 <= MaxRequests example_settings <= max_int
  /\ 0 <= halfOpenRequests (fst example_opened) <= MaxRequests example_settings.
Proof.
  assert (H : 0 <= MaxRequests example_settings <= max_int)
    by (vm_compute; split; discriminate).
  split; [exact H |].
  destruct (halfOpenRequests_bounded_and_reset example_settings H) as (Hb & _).
  apply (Hb example_opened []).
  apply (Execute_all_reachable example_settings three_failures), reach_New.
Defined.

Lemma Execute_open_after_timeout_witness :
  let c := mkBreaker StateOpen 3 0 0 (2 * Second) example_settings in
  let w := (3%nat, [(StateClosed, StateOpen)]) in
  Execute_phase1 (7 * Second) (c, w)
  = (Proceed StateHalfOpen,
     (mkBreaker StateHalfOpen 3 0 1 (2 * Second) example_settings,
      (3%nat, [(StateClosed, StateOpen); (StateOpen, StateHalfOpen)]))).
Proof.
  intros c w.
  destruct (Execute_open_after_timeout (7 * Second) c w eq_refl)
    as (_ & _ & H & _).
  - vm_compute. discriminate.
  - exact H.
Defined.

Lemma Execute_half_open_failure_witness :
  let c := mkBreaker StateOpen 3 0 0 (2 * Second) example_settings in
  let w := (3%nat, [(StateClosed, StateOpen)]) in
  Execute failing (7 * Second) (8 * Second) (c, w)
  = ((Some EmptyString, Some "service unavailable"%string),
     (mkBreaker StateOpen 4 0 1 (8 * Second) example_settings,
      (4%nat, [(StateClosed, StateOpen); (StateOpen, StateHalfOpen);
               (StateHalfOpen, StateOpen)]))).
Proof.
  intros c w.
  exact (Execute_half_open_failure failing (7 * Second) (8 * Second) (c, w)
           (mkBreaker StateHalfOpen 3 0 1 (2 * Second) example_settings)
           (3%nat, [(StateClosed, StateOpen); (StateOpen, StateHalfOpen)])
           (Some EmptyString) "service unavailable"%string
           (4%nat, [(StateClosed, StateOpen); (StateOpen, StateHalfOpen)])
           eq_refl eq_refl).
Defined.

Lemma Execute_half_open_success_witness :
  let c := mkBreaker StateHalfOpen 0 1 0 (2 * Second) example_settings in
  let w := (4%nat, [(StateClosed, StateOpen); (StateOpen, StateHalfOpen)]) in
  Execute succeeding (8 * Second) (8 * Second) (c, w)
  = ((Some "success"%string, None),
     (mkBreaker StateClosed 0 2 0 (2 * Second) example_settings,
      (5%nat, [(StateClosed, StateOpen); (StateOpen, StateHalfOpen);
               (StateHalfOpen, StateClosed)]))).
Proof.
  intros c w.
  exact (Execute_half_open_success succeeding (8 * Second) (8 * Second) (c, w)
           (mkBreaker StateHalfOpen 0 1 1 (2 * Second) example_settings)
           w (Some "success"%string)
           (5%nat, [(StateClosed, StateOpen); (StateOpen, StateHalfOpen)])
           eq_refl eq_refl).
Defined.



Lemma streaks_never_both_nonzero_witness :
  reachable example_settings example_opened []
  /\ (failureCount (fst example_opened) = 0
      \/ successCount (fst example_opened) = 0).
Proof.
  assert (H : reachable example_settings example_opened [])
    by (apply (Execute_all_reachable example_settings three_failures), reach_New).
  split; [exact H |].
  exact (streaks_never_both_nonzero example_settings example_opened [] H).
Defined.

(** * What a caller of the breaker can rely on *)

Section Caller.

Context {World Result : Type}.

Implicit Types (c : circuitBreaker World) (w : World) (m : machine World).
Implicit Types (fn : operation World Result) (now : Time).
Implicit Types (st : Settings World).

(** What phase 1 tells a call that may not proceed. *)
Lemma gate_blocked m e m1 :
  gate m = (Blocked e, m1) ->
  m1 = m
  /\ ((e = errOpen /\ state (fst m) = StateOpen)
      \/ (e = errHalfOpen /\ state (fst m) = StateHalfOpen
          /\ MaxRequests (settings (fst m)) <= halfOpenRequests (fst m))).
Proof.
  destruct m as [c w]. unfold gate. cbn [fst].
  destruct (state c) eqn:Hs.
  - discriminate.
  - intros [= <- <-]. auto.
  - destruct (Z.leb_spec (MaxRequests (settings c)) (halfOpenRequests c)).
    + intros [= <- <-]. auto.
    + discriminate.
Qed.

Lemma half_open_if_due_keeps now m :
  failureCount (fst (half_open_if_due now m)) = failureCount (fst m)
  /\ openedAt (fst (half_open_if_due now m)) = openedAt (fst m).
Proof.
  destruct m as [c w]. unfold half_open_if_due, setState.
  branches; auto.
Qed.

(** X1.  The two ways a call ends.  Either it is turned away: it returns
    [nil] and the open or the half-open error, and it leaves the same
    machine state whatever the operation is, which is not run.  Or it
    returns the result and the error of the operation, as they are, the
    operation being run once on a world that does not depend on it. *)
Theorem Execute_result_is_rejection_or_operation t1 t2 m :
  (exists e m1,
      (e = errOpen \/ e = errHalfOpen)
      /\ forall fn, Execute fn t1 t2 m = ((None, Some e), m1))
  \/ (exists c1 w1,
         forall fn,
           Execute fn t1 t2 m =
             (fst (fn w1),
              Execute_phase3 (state c1) (snd (fst (fn w1))) t2
                             (c1, snd (fn w1)))).
Proof.
  unfold Execute.
  destruct (Execute_phase1 t1 m) as [[a | e] [c1 w1]] eqn:Hp.
  - right. exists c1, w1. intros fn.
    rewrite (Execute_phase1_captured _ _ _ _ _ Hp).
    destruct (fn w1) as [[result err] w2]. reflexivity.
  - left. exists e, (c1, w1). split; [| reflexivity].
    unfold Execute_phase1 in Hp. apply gate_blocked in Hp.
    destruct Hp as (_ & [[-> _] | [-> _]]); auto.
Qed.

(** X2.  A call that is turned away is not counted: [failureCount],
    [openedAt] and the settings stay as they are, so the timeout keeps
    running from the failure that opened the breaker.  The error tells the
    state: the open error comes from a breaker that is open, unchanged by
    the call, with less than the timeout elapsed; the half-open error from
    a breaker left half-open with [halfOpenRequests] at [MaxRequests] or
    above. *)
Theorem rejection_keeps_counters_and_tells_state now m e m1 :
  Execute_phase1 now m = (Blocked e, m1) ->
  failureCount (fst m1) = failureCount (fst m)
  /\ openedAt (fst m1) = openedAt (fst m)
  /\ settings (fst m1) = settings (fst m)
  /\ ((e = errOpen /\ m1 = m /\ state (fst m) = StateOpen
       /\ time_Since now (openedAt (fst m)) < Timeout (settings (fst m)))
      \/ (e = errHalfOpen /\ state (fst m1) = StateHalfOpen
          /\ MaxRequests (settings (fst m1)) <= halfOpenRequests (fst m1))).
Proof.
  intros Hp. unfold Execute_phase1 in Hp.
  apply gate_blocked in Hp. destruct Hp as (-> & Hcase).
  destruct (half_open_if_due_keeps now m) as (Hf & Ho).
  repeat apply conj; auto using half_open_if_due_settings.
  destruct Hcase as [(-> & Hs) | (-> & Hs & Hfull)]; [left | right; auto].
  destruct m as [c w]. revert Hs. unfold half_open_if_due, setState.
  destruct (State_eqb_spec (state c) StateOpen) as [Hopen | Hno]; cbn.
  - destruct (Z.leb_spec (Timeout (settings c))
                         (time_Since now (openedAt c))); cbn.
    + rewrite Hopen. cbn. discriminate.
    + auto.
  - intros Hs. contradiction.
Qed.

(** X3.  [Reset] gives the breaker that [New] gives for the same settings,
    and a second [Reset] changes nothing more and runs no callback. *)
Theorem Reset_gives_New_and_is_idempotent c w :
  fst (Reset (c, w)) = New (settings c)
  /\ Reset (Reset (c, w)) = Reset (c, w).
Proof.
  split; [apply Reset_breaker |].
  pose proof (Reset_breaker c w) as Hb.
  destruct (Reset (c, w)) as [c1 w1]. cbn in Hb. subst c1. reflexivity.
Qed.

(** X4.  [setState] leaves the breaker in the requested state and touches
    nothing else of it; asked for the state the breaker is in, it does
    nothing; done twice, it is as done once, so one change of state runs
    the callback once. *)
Theorem setState_once s c w :
  state (fst (setState s (c, w))) = s
  /\ fst (setState s (c, w)) = set_state s c
  /\ setState (state c) (c, w) = (c, w)
  /\ setState s (setState s (c, w)) = setState s (c, w).
Proof.
  repeat apply conj.
  - apply setState_state.
  - unfold setState.
    destruct (State_eqb_spec (state c) s) as [<- | Hne];
      [destruct c |]; reflexivity.
  - now apply setState_same.
  - pose proof (setState_state s (c, w)) as Hs.
    destruct (setState s (c, w)) as [c1 w1]. now apply setState_same.
Qed.

(** X5.  The settings are those given to [New] for good: no phase of
    [Execute], no whole call and no [Reset] changes them. *)
Theorem settings_never_change st fn t1 t2 m fl :
  reachable st m fl ->
  settings (fst m) = st
  /\ settings (fst (snd (Execute fn t1 t2 m))) = st
  /\ settings (fst (Reset m)) = st.
Proof.
  intros Hr. repeat apply conj.
  - exact (reachable_settings _ _ _ Hr).
  - exact (reachable_settings _ _ _ (Execute_reachable st fn t1 t2 m fl Hr)).
  - exact (reachable_settings _ _ _ (reach_Reset st m fl Hr)).
Qed.

End Caller.

(** * Settings at the edge

    [New] takes the settings as they come: nothing checks that the
    thresholds and [MaxRequests] are positive or the timeout is not
    negative. *)

Section Edge.

Context {World Result : Type}.

Implicit Types (c : circuitBreaker World) (w : World) (m : machine World).
Implicit Types (fn : operation World Result) (now : Time).
Implicit Types (calls : list (operation World Result * Time * Time)).

Lemma latched_Execute c w t1 t2 :
  latched c ->
  exists e c1 w1,
    (e = errOpen \/ e = errHalfOpen)
    /\ (forall fn, Execute fn t1 t2 (c, w) = ((None, Some e), (c1, w1)))
    /\ latched c1.
Proof.
  intros (Hnc & Hh & Hmax). unfold Execute, Execute_phase1.
  destruct (half_open_if_due t1 (c, w)) as [c0 w0] eqn:Hd.
  assert (Hl : latched c0).
  { pose proof (half_open_if_due_settings t1 (c, w)) as Hst.
    rewrite Hd in Hst. cbn in Hst.
    revert Hd. unfold half_open_if_due, setState, latched.
    branches; intros [= <- <-]; cbn; rewrite <- ?Hst;
      repeat apply conj; auto; try discriminate; try lia. }
  destruct Hl as (Hnc0 & Hh0 & Hmax0).
  unfold gate. destruct (state c0) eqn:Hs0.
  - contradiction.
  - exists errOpen, c0, w0. repeat apply conj; auto.
    rewrite Hs0. discriminate.
  - replace (MaxRequests (settings c0) <=? halfOpenRequests c0) with true
      by (symmetry; apply Z.leb_le; lia).
    exists errHalfOpen, c0, w0. repeat apply conj; auto.
    rewrite Hs0. discriminate.
Qed.

(** X6.  With [MaxRequests] at 0 or below, a breaker that is not closed
    stays so through any number of calls made one after the other: every
    call is turned away whatever the clock says, no operation is run, and
    the breaker never closes again.  ([halfOpenRequests] is 0 or more, as
    in every reachable state.) *)
Theorem without_probe_slots_never_closes c w :
  state c <> StateClosed ->
  0 <= halfOpenRequests c ->
  MaxRequests (settings c) <= 0 ->
  (forall t1 t2,
      exists e m1,
        (e = errOpen \/ e = errHalfOpen)
        /\ (forall fn, Execute fn t1 t2 (c, w) = ((None, Some e), m1))
        /\ state (fst m1) <> StateClosed)
  /\ (forall calls, state (fst (Execute_all calls (c, w))) <> StateClosed).
Proof.
  intros Hnc Hh Hmax.
  assert (Hl : latched c) by (repeat split; assumption).
  clear Hnc Hh Hmax. split.
  - intros t1 t2.
    destruct (latched_Execute c w t1 t2 Hl) as (e & c1 & w1 & He & Hx & Hl1).
    exists e, (c1, w1). repeat apply conj; auto. apply Hl1.
  - intros calls. revert c w Hl.
    induction calls as [| [[fn t1] t2] rest IH]; intros c w Hl.
    + apply Hl.
    + cbn [Execute_all].
      destruct (latched_Execute c w t1 t2 Hl) as (e & c1 & w1 & _ & Hx & Hl1).
      rewrite Hx. apply IH, Hl1.
Qed.

(** X7.  A threshold of 1 or less acts as 1.  With [FailureThreshold] at
    most 1, one recorded failure opens the breaker, whatever state the
    call captured; with [SuccessThreshold] at most 1, one recorded success
    of a half-open call closes it.  (The counters are not negative and not
    the largest [int].) *)
Theorem thresholds_up_to_one captured e now c w :
  0 <= failureCount c < max_int ->
  0 <= successCount c < max_int ->
  (FailureThreshold (settings c) <= 1 ->
   state (fst (Execute_phase3 captured (Some e) now (c, w))) = StateOpen)
  /\ (SuccessThreshold (settings c) <= 1 ->
      state (fst (Execute_phase3 StateHalfOpen None now (c, w)))
        = StateClosed).
Proof.
  intros Hf Hs. split; intros Hthr.
  - unfold Execute_phase3. cbn.
    rewrite incr_small by (unfold min_int; lia).
    replace (FailureThreshold (settings c) <=? failureCount c + 1) with true
      by (symmetry; apply Z.leb_le; lia).
    rewrite orb_true_r. unfold setState. cbn.
    destruct (State_eqb_spec (state c) StateOpen); cbn; auto.
  - rewrite Execute_phase3_half_open_success. cbv zeta.
    rewrite incr_small by (unfold min_int; lia).
    replace (SuccessThreshold (settings c) <=? successCount c + 1) with true
      by (symmetry; apply Z.leb_le; lia).
    reflexivity.
Qed.

(** X8.  With a timeout of 0 or less and a clock that does not run
    backwards, an open breaker turns no call away as open: the next call
    finds it half-open, and is admitted when [MaxRequests] is positive. *)
Theorem no_timeout_no_open_rejection now c w :
  state c = StateOpen ->
  Timeout (settings c) <= 0 ->
  openedAt c <= now ->
  state (fst (snd (Execute_phase1 now (c, w)))) = StateHalfOpen
  /\ fst (Execute_phase1 now (c, w)) <> Blocked errOpen
  /\ fst (Execute_phase1 now (c, w)) =
       if MaxRequests (settings c) <=? 0 then Blocked errHalfOpen
       else Proceed StateHalfOpen.
Proof.
  intros Hs Ht Hclock.
  assert (Hdue : Timeout (settings c) <= time_Since now (openedAt c)).
  { unfold time_Since, time_Sub, min_int, max_int. lia. }
  unfold Execute_phase1.
  rewrite (half_open_if_due_late now c w Hs Hdue).
  unfold gate. cbn.
  destruct (MaxRequests (settings c) <=? 0); cbn;
    repeat apply conj; auto; discriminate.
Qed.

End Edge.

(** * The moves of the state *)

Section Moves.

Context {World : Type}.

Implicit Types (c : circuitBreaker World) (w : World) (m : machine World).
Implicit Types (st : Settings World).


(** X10.  What phase 3 does to the counters and to [openedAt] depends on
    the state the call captured, not on the state the breaker is in by
    then. *)
Theorem recording_reads_captured_state captured err now s c w :
  let r := fst (Execute_phase3 captured err now (c, w)) in
  let r' := fst (Execute_phase3 captured err now (set_state s c, w)) in
  failureCount r' = failureCount r
  /\ successCount r' = successCount r
  /\ halfOpenRequests r' = halfOpenRequests r
  /\ openedAt r' = openedAt r.
Proof.
  unfold Execute_phase3, setState. cbv zeta.
  destruct err; cbn; branches; auto.
Qed.

(** *** Requests counted and requests in progress *)










End Moves.

(** * Runs of calls *)

Section Runs.

Context {World Result : Type}.

Implicit Types (c : circuitBreaker World) (w : World) (m : machine World).
Implicit Types (fn : operation World Result).
Implicit Types (calls : list (operation World Result * Time * Time)).

(** A successful call on a half-open breaker with room for it. *)
Lemma Execute_probe_success fn t1 t2 c w result w2 :
  state c = StateHalfOpen ->
  halfOpenRequests c < MaxRequests (settings c) ->
  fn w = ((result, None), w2) ->
  Execute fn t1 t2 (c, w) =
    ((result, None),
     let n := incr (successCount c) in
     if SuccessThreshold (settings c) <=? n
     then (mkBreaker StateClosed 0 n 0 (openedAt c) (settings c),
           fire (settings c) StateHalfOpen StateClosed w2)
     else (mkBreaker StateHalfOpen 0 n 0 (openedAt c) (settings c), w2)).
Proof.
  intros Hs Hfree Hfn. unfold Execute, Execute_phase1.
  rewrite half_open_if_due_not_open by congruence.
  unfold gate. rewrite Hs.
  replace (MaxRequests (settings c) <=? halfOpenRequests c) with false
    by (symmetry; apply Z.leb_gt; exact Hfree).
  rewrite Hfn. rewrite Execute_phase3_half_open_success. cbv zeta. fields.
  now rewrite Hs.
Qed.

(** X13.  Recovery.  On a half-open breaker with room for a request and
    [MaxRequests] positive, calls made one after the other that all
    succeed are all admitted, each one freeing the room it took: the
    breaker stays half-open, counting the successes, until the call that
    brings [successCount] to [SuccessThreshold], which closes it. *)
Theorem successes_close_at_threshold calls : forall c w,
  state c = StateHalfOpen ->
  halfOpenRequests c < MaxRequests (settings c) ->
  0 < MaxRequests (settings c) ->
  is_int (successCount c) ->
  is_int (SuccessThreshold (settings c)) ->
  successCount c < SuccessThreshold (settings c) ->
  Forall succeeds calls ->
  let k := SuccessThreshold (settings c) - successCount c in
  let n := Z.of_nat (List.length calls) in
  let m' := Execute_all calls (c, w) in
  (n < k ->
   state (fst m') = StateHalfOpen
   /\ successCount (fst m') = successCount c + n)
  /\ (n = k ->
      state (fst m') = StateClosed
      /\ successCount (fst m') = SuccessThreshold (settings c)
      /\ failureCount (fst m') = 0
      /\ halfOpenRequests (fst m') = 0).
Proof.
  induction calls as [| [[fn t1] t2] rest IH];
    intros c w Hs Hfree Hmax Hi Hthr Hlt Hall k n m'.
  - subst k n m'. cbn. split; intros; [split; [assumption | lia] | lia].
  - inversion Hall as [| x l Hfn Hrest]; subst.
    subst m'. cbn [Execute_all].
    unfold succeeds in Hfn. cbn in Hfn. specialize (Hfn w).
    destruct (fn w) as [[result err] w2] eqn:Hw. cbn in Hfn. subst err.
    rewrite (Execute_probe_success fn t1 t2 c w result w2 Hs Hfree Hw).
    cbn [snd]. cbv zeta.
    assert (Hincr : incr (successCount c) = successCount c + 1)
      by (apply incr_small; unfold is_int in *; lia).
    rewrite Hincr.
    assert (Hn : n = Z.of_nat (List.length rest) + 1)
      by (subst n; cbn [List.length]; lia).
    destruct (Z.leb_spec (SuccessThreshold (settings c)) (successCount c + 1))
      as [Hhit | Hbelow].
    + split; intros Hnk; [subst k; lia |].
      assert (rest = [])
        by (destruct rest; [reflexivity | subst k; cbn [List.length] in *; lia]).
      subst rest. cbn. repeat apply conj; auto. lia.
    + match goal with
      | |- context [Execute_all rest (?c1, w2)] =>
          specialize (IH c1 w2 eq_refl); fields
      end.
      destruct IH as (IH1 & IH2); try assumption; try lia.
      * unfold is_int in *. lia.
      * subst k. split; intros Hnk.
        -- destruct IH1 as (I1 & I2); [lia |]. split; [exact I1 | lia].
        -- apply IH2. lia.
Qed.

End Runs.

Section Streaks.

Context {World : Type}.

Implicit Types (c : circuitBreaker World) (w : World) (m : machine World).

(** Once the breaker is open, the results of calls admitted while it was
    closed do not close it. *)
Lemma record_outcomes_open outcomes : forall c w,
  state c = StateOpen ->
  state (fst (record_outcomes outcomes (c, w))) = StateOpen.
Proof.
  induction outcomes as [| [err t] rest IH]; intros c w Hs;
    cbn [record_outcomes].
  - exact Hs.
  - destruct err as [e |].
    + rewrite Execute_phase3_closed_failure. cbv zeta.
      destruct (_ <=? _); apply IH; [reflexivity | exact Hs].
    + unfold Execute_phase3. cbn [State_eqb]. apply IH. exact Hs.
Qed.

(** X14.  What keeps a breaker closed.  Through the results of calls
    admitted by a closed breaker, the breaker is still closed at the end
    exactly when at no point [FailureThreshold] failures came in a row, a
    success starting the count again; and then [failureCount] is the
    number of failures at the end of the sequence and no callback has
    run. *)
Theorem closed_while_streak_below_threshold outcomes : forall c w,
  state c = StateClosed ->
  is_int (failureCount c) ->
  failureCount c < max_int ->
  is_int (FailureThreshold (settings c)) ->
  let m' := record_outcomes outcomes (c, w) in
  let below :=
    stays_below (FailureThreshold (settings c)) (failureCount c) outcomes in
  (state (fst m') = StateClosed <-> below = true)
  /\ (below = true ->
      failureCount (fst m') = streak (failureCount c) outcomes
      /\ snd m' = w).
Proof.
  induction outcomes as [| [err t] rest IH]; intros c w Hs Hi Hlt Hthr m' below.
  - subst m' below. cbn. repeat split; auto.
  - subst m' below. cbn [record_outcomes stays_below streak].
    destruct err as [e |].
    + rewrite Execute_phase3_closed_failure. cbv zeta.
      rewrite incr_small by (unfold is_int in *; lia).
      destruct (Z.leb_spec (FailureThreshold (settings c)) (failureCount c + 1))
        as [Hhit | Hbelow].
      * replace (failureCount c + 1 <? FailureThreshold (settings c))
          with false by (symmetry; apply Z.ltb_ge; exact Hhit).
        cbn [andb]. rewrite Hs. cbn [State_eqb].
        rewrite record_outcomes_open by reflexivity.
        repeat split; intros; discriminate.
      * replace (failureCount c + 1 <? FailureThreshold (settings c))
          with true by (symmetry; apply Z.ltb_lt; exact Hbelow).
        cbn [andb]. rewrite Hs.
        match goal with
        | |- context [record_outcomes rest (?c1, w)] =>
            specialize (IH c1 w eq_refl); fields
        end.
        apply IH; unfold is_int in *; lia.
    + unfold Execute_phase3. cbn [State_eqb].
      match goal with
      | |- context [record_outcomes rest (?c1, w)] =>
          specialize (IH c1 w); fields
      end.
      apply IH; auto; unfold is_int, min_int, max_int in *; lia.
Qed.

End Streaks.

(** X15.  [String] names the three states "closed", "open" and
    "half-open": the names tell the states apart and none is "unknown",
    the name of every other value of the underlying [int]. *)
Theorem State_String_names :
  (forall s, String_of_code (State_code s) = State_String s)
  /\ (forall a b, State_String a = State_String b -> a = b)
  /\ (forall s, State_String s <> "unknown"%string)
  /\ (forall z, z < 0 \/ 2 < z -> String_of_code z = "unknown"%string).
Proof.
  repeat apply conj.
  - intros []; reflexivity.
  - intros [] []; cbn; intros H; try reflexivity; discriminate H.
  - intros []; discriminate.
  - intros z Hz. unfold String_of_code.
    destruct (Z.eqb_spec z 0); [lia |].
    destruct (Z.eqb_spec z 1); [lia |].
    destruct (Z.eqb_spec z 2); [lia |]. reflexivity.
Qed.

(** * The callback and the default settings *)

Section Callback.

Context {World : Type}.

Implicit Types (c : circuitBreaker World) (w : World) (m : machine World).

Lemma gate_world m : snd (snd (gate m)) = snd m.
Proof.
  destruct m as [c w]. unfold gate.
  destruct (state c); try reflexivity.
  destruct (_ <=? _); reflexivity.
Qed.

(** X16.  Each locked region runs the callback at most once, with the
    state the breaker was in as [from] and another state as [to]: phase 1
    on (open, half-open) only, phase 3 towards open or closed, [Reset]
    towards closed.  Nothing else of the breaker touches the world, so
    with no callback in the settings these regions leave the world as it
    is. *)
Theorem callback_once_per_phase captured err now c w :
  (snd (snd (Execute_phase1 now (c, w))) = w
   \/ (state c = StateOpen
       /\ snd (snd (Execute_phase1 now (c, w)))
          = fire (settings c) StateOpen StateHalfOpen w))
  /\ (snd (Execute_phase3 captured err now (c, w)) = w
      \/ exists to,
           to <> state c /\ (to = StateOpen \/ to = StateClosed)
           /\ snd (Execute_phase3 captured err now (c, w))
              = fire (settings c) (state c) to w)
  /\ (snd (Reset (c, w)) = w
      \/ (state c <> StateClosed
          /\ snd (Reset (c, w)) = fire (settings c) (state c) StateClosed w))
  /\ (OnStateChange (settings c) = None ->
      snd (snd (Execute_phase1 now (c, w))) = w
      /\ snd (Execute_phase3 captured err now (c, w)) = w
      /\ snd (Reset (c, w)) = w).
Proof.
  assert (H1 : snd (snd (Execute_phase1 now (c, w))) = w
               \/ (state c = StateOpen
                   /\ snd (snd (Execute_phase1 now (c, w)))
                      = fire (settings c) StateOpen StateHalfOpen w)).
  { unfold Execute_phase1. rewrite gate_world.
    destruct (State_eqb_spec (state c) StateOpen) as [Hs | Hs].
    - destruct (Z.leb_spec (Timeout (settings c))
                           (time_Since now (openedAt c))) as [Hdue | Hearly].
      + rewrite (half_open_if_due_late now c w Hs Hdue). auto.
      + rewrite (half_open_if_due_early now c w Hearly). auto.
    - rewrite half_open_if_due_not_open by exact Hs. auto. }
  assert (H3 : snd (Execute_phase3 captured err now (c, w)) = w
               \/ exists to,
                    to <> state c /\ (to = StateOpen \/ to = StateClosed)
                    /\ snd (Execute_phase3 captured err now (c, w))
                       = fire (settings c) (state c) to w).
  { unfold Execute_phase3, setState. fields.
    destruct err; cbn [snd].
    - destruct (State_eqb captured StateHalfOpen || _); [| auto].
      destruct (State_eqb_spec (state c) StateOpen); cbn [snd]; [auto |].
      right. exists StateOpen. auto.
    - destruct (State_eqb captured StateHalfOpen); [| auto].
      destruct (_ <=? _); [| auto].
      destruct (State_eqb_spec (state c) StateClosed); cbn [snd]; [auto |].
      right. exists StateClosed. auto. }
  assert (HR : snd (Reset (c, w)) = w
               \/ (state c <> StateClosed
                   /\ snd (Reset (c, w))
                      = fire (settings c) (state c) StateClosed w)).
  { unfold Reset, setState.
    destruct (State_eqb_spec (state c) StateClosed); cbn [snd]; auto. }
  repeat apply conj; auto.
  intros Hnil.
  assert (Hfire : forall a b, fire (settings c) a b w = w)
    by (intros a b; unfold fire; now rewrite Hnil).
  repeat apply conj.
  - destruct H1 as [-> | (_ & ->)]; auto.
  - destruct H3 as [-> | (to & _ & _ & ->)]; auto.
  - destruct HR as [-> | (_ & ->)]; auto.
Qed.


End Callback.

(** * These properties at the breaker of the example *)

Lemma rejection_keeps_counters_and_tells_state_witness :
  let m := (mkBreaker StateOpen 3 0 0 (2 * Second) example_settings,
            (3%nat, [(StateClosed, StateOpen)])) in
  failureCount (fst m) = 3 /\ openedAt (fst m) = 2 * Second
  /\ time_Since (3 * Second) (openedAt (fst m)) < Timeout (settings (fst m)).
Proof.
  intros m.
  destruct (rejection_keeps_counters_and_tells_state
              (3 * Second) m errOpen m eq_refl)
    as (Hf & Ho & _ & [(_ & _ & _ & Ht) | (He & _)]).
  - repeat split; assumption.
  - discriminate He.
Defined.

Lemma settings_never_change_witness :
  settings (fst (snd (Execute failing (7 * Second) (7 * Second)
                              example_opened)))
  = example_settings.
Proof.
  assert (H : reachable example_settings example_opened [])
    by (apply (Execute_all_reachable example_settings three_failures),
          reach_New).
  destruct (settings_never_change example_settings failing
              (7 * Second) (7 * Second) example_opened [] H) as (_ & Hx & _).
  exact Hx.
Defined.

Lemma without_probe_slots_never_closes_witness :
  let st := mkSettings 3 2 (5 * Second) 0 (Some note) in
  let c := mkBreaker StateOpen 3 0 0 (2 * Second) st in
  state (fst (Execute_all
                [(succeeding, 7 * Second, 7 * Second);
                 (succeeding, 8 * Second, 8 * Second)] (c, untouched)))
  <> StateClosed.
Proof.
  intros st c.
  destruct (without_probe_slots_never_closes (Result := string) c untouched)
    as (_ & H).
  - discriminate.
  - vm_compute. discriminate.
  - vm_compute. discriminate.
  - apply H.
Defined.

Lemma thresholds_up_to_one_witness :
  let st := mkSettings 0 0 (5 * Second) 1 (Some note) in
  let c := mkBreaker StateHalfOpen 0 0 1 (2 * Second) st in
  state (fst (Execute_phase3 StateHalfOpen (Some "down"%string)
                             (7 * Second) (c, untouched))) = StateOpen
  /\ state (fst (Execute_phase3 StateHalfOpen None (7 * Second)
                                (c, untouched))) = StateClosed.
Proof.
  intros st c.
  assert (H0 : 0 <= 0 < max_int) by (vm_compute; split; [discriminate | reflexivity]).
  destruct (thresholds_up_to_one StateHalfOpen "down"%string (7 * Second)
              c untouched H0 H0) as (Hf & Hs).
  split; [apply Hf | apply Hs]; vm_compute; discriminate.
Defined.

Lemma no_timeout_no_open_rejection_witness :
  let st := mkSettings 3 2 0 1 (Some note) in
  let c := mkBreaker StateOpen 3 0 0 (2 * Second) st in
  fst (Execute_phase1 (2 * Second) (c, untouched)) = Proceed StateHalfOpen.
Proof.
  intros st c.
  destruct (no_timeout_no_open_rejection (2 * Second) c untouched eq_refl)
    as (_ & _ & H).
  - vm_compute. discriminate.
  - vm_compute. discriminate.
  - exact H.
Defined.



Lemma successes_close_at_threshold_witness :
  let c := mkBreaker StateHalfOpen 3 0 0 (2 * Second) example_settings in
  let calls := [(succeeding, 7 * Second, 7 * Second);
                (succeeding, 8 * Second, 8 * Second)] in
  state (fst (Execute_all (firstn 1 calls) (c, untouched))) = StateHalfOpen
  /\ state (fst (Execute_all calls (c, untouched))) = StateClosed.
Proof.
  intros c calls.
  assert (I0 : is_int 0) by (vm_compute; split; discriminate).
  assert (I2 : is_int 2) by (vm_compute; split; discriminate).
  assert (Hall : Forall succeeds calls) by (repeat constructor).
  split.
  - destruct (successes_close_at_threshold (firstn 1 calls) c untouched
                eq_refl eq_refl eq_refl I0 I2 eq_refl
                ltac:(repeat constructor)) as (H & _).
    apply H. reflexivity.
  - destruct (successes_close_at_threshold calls c untouched
                eq_refl eq_refl eq_refl I0 I2 eq_refl Hall) as (_ & H).
    apply H. reflexivity.
Defined.

Lemma closed_while_streak_below_threshold_witness :
  let c := New example_settings in
  let outcomes := [(Some "e1"%string, 1 * Second); (Some "e2"%string, 2 * Second);
                   (None, 3 * Second); (Some "e3"%string, 4 * Second)] in
  state (fst (record_outcomes outcomes (c, untouched))) = StateClosed
  /\ failureCount (fst (record_outcomes outcomes (c, untouched))) = 1.
Proof.
  intros c outcomes.
  destruct (closed_while_streak_below_threshold outcomes c untouched eq_refl)
    as (Hiff & Hcount).
  - vm_compute. split; discriminate.
  - reflexivity.
  - vm_compute. split; discriminate.
  - split.
    + apply Hiff. reflexivity.
    + destruct (Hcount eq_refl) as (Hf & _). exact Hf.
Defined.

Lemma State_String_names_witness :
  String_of_code 7 = "unknown"%string
  /\ (State_String StateOpen = State_String StateOpen -> StateOpen = StateOpen).
Proof.
  destruct State_String_names as (_ & Hinj & _ & Hunk).
  split.
  - apply Hunk. right. reflexivity.
  - apply Hinj.
Defined.

Lemma callback_once_per_phase_witness :
  let c := mkBreaker (World := Probe) StateOpen 5 0 0 (2 * Second)
                     DefaultSettings in
  snd (snd (Execute_phase1 (40 * Second) (c, untouched))) = untouched
  /\ snd (Reset (c, untouched)) = untouched.
Proof.
  intros c.
  destruct (callback_once_per_phase StateClosed None (40 * Second)
              c untouched) as (_ & _ & _ & H).
  destruct (H eq_refl) as (H1 & _ & HR). split; assumption.
Defined.


Lemma Execute_all_closed_failures_witness :
  state (fst (Execute_all (firstn 2 three_failures)
                          (New example_settings, untouched))) = StateClosed
  /\ state (fst (Execute_all three_failures
                             (New example_settings, untouched))) = StateOpen.
Proof.
  assert (I0 : is_int 0) by (vm_compute; split; discriminate).
  assert (I3 : is_int 3) by (vm_compute; split; discriminate).
  assert (Hall : Forall fails three_failures)
    by (repeat constructor; intros w; discriminate).
  split.
  - destruct (Execute_all_closed_failures (firstn 2 three_failures)
                (New example_settings) untouched eq_refl I0 I3 eq_refl
                ltac:(repeat constructor; intros w; discriminate))
      as (H & _).
    apply H. reflexivity.
  - destruct (Execute_all_closed_failures three_failures
                (New example_settings) untouched eq_refl I0 I3 eq_refl Hall)
      as (_ & H).
    apply H. reflexivity.
Defined.
